(** * Landing-blue: the admin panel's state machine, checked against its spec

    A shallow embedding of the client-side state handling of
    [src/app/page.tsx] (content store with undo/redo history, mock
    authentication gate with lockout, persistence of the admin preferences,
    gallery filter) and of the contact endpoint [src/app/api/contact/route.ts].

    React state is modelled by explicit state passing: a handler is a function
    from the state it reads to the state it installs.  A handler runs on the
    values of the render it was created in; every event is followed by a
    render, so those values are the current state when the handler fires. *)

From Stdlib Require Import ZArith String Ascii List Bool Lia Floats.
From stdpp Require Import base tactics option list strings.

Open Scope Z_scope.
Open Scope string_scope.

(** ** JavaScript strings

    Strings are byte strings holding UTF-8 text; [===] on strings is equality
    of the byte sequences. *)
Module Js.

(** [String.prototype.toLowerCase], on the ASCII letters.  Characters outside
    ASCII are left as they are; for the comparisons made in this program (the
    two account emails, which hold no letter that a non-ASCII character
    lower-cases to) this decides equality as the full Unicode mapping does. *)
Definition lower_ascii (c : ascii) : ascii :=
  let n := nat_of_ascii c in
  if ((65 <=? n) && (n <=? 90))%nat then ascii_of_nat (n + 32) else c.

Fixpoint toLowerCase (s : string) : string :=
  match s with
  | EmptyString => EmptyString
  | String c r => String (lower_ascii c) (toLowerCase r)
  end.

Definition bytes (l : list nat) : string :=
  string_of_list_ascii (map ascii_of_nat l).

(** The white space and line terminators [String.prototype.trim] removes, each
    as its UTF-8 encoding: U+0009..U+000D, U+0020, U+00A0, U+1680,
    U+2000..U+200A, U+2028, U+2029, U+202F, U+205F, U+3000, U+FEFF. *)
Definition whitespace_codes : list (list nat) :=
  (app [ [9]; [10]; [11]; [12]; [13]; [32]; [194; 160]; [225; 154; 128] ]
    (app (map (fun k => [226; 128; 128 + k]) (seq 0 11))
         [ [226; 128; 168]; [226; 128; 169]; [226; 128; 175];
           [226; 129; 159]; [227; 128; 128]; [239; 187; 191] ]))%nat.

Definition whitespace : list string := map bytes whitespace_codes.

Fixpoint strip_prefix (p s : string) : option string :=
  match p, s with
  | EmptyString, _ => Some s
  | String a p', String b s' => if Ascii.eqb a b then strip_prefix p' s' else None
  | String _ _, EmptyString => None
  end.

Fixpoint strip_first (tokens : list string) (s : string) : option string :=
  match tokens with
  | [] => None
  | t :: ts =>
      match strip_prefix t s with
      | Some r => Some r
      | None => strip_first ts s
      end
  end.

Fixpoint trim_loop (tokens : list string) (fuel : nat) (s : string) : string :=
  match fuel with
  | O => s
  | S fuel' =>
      match strip_first tokens s with
      | Some r => trim_loop tokens fuel' r
      | None => s
      end
  end.

Definition trimStart (s : string) : string :=
  trim_loop whitespace (String.length s) s.

Definition string_rev (s : string) : string :=
  string_of_list_ascii (rev (list_ascii_of_string s)).

Definition trimEnd (s : string) : string :=
  string_rev (trim_loop (map string_rev whitespace) (String.length s) (string_rev s)).

Definition trim (s : string) : string := trimEnd (trimStart s).

(** A value produced by [JSON.parse].  An object keeps its entries in
    insertion order, one entry per key. *)
#[warnings="-register-all"]
Inductive json : Type :=
  | JNull
  | JBool (b : bool)
  | JNumber (n : float)
  | JString (s : string)
  | JArray (elems : list json)
  | JObject (entries : list (string * json)).

(** The result of reading a property: a value or [undefined]. *)
Fixpoint lookup_entry (k : string) (entries : list (string * json)) : option json :=
  match entries with
  | [] => None
  | (k', v) :: rest => if String.eqb k k' then Some v else lookup_entry k rest
  end.

(** [payload?.key] for a key that no prototype defines: the own entry of an
    object, [undefined] on [null] and on every other value. *)
Definition optional_get (payload : json) (k : string) : option json :=
  match payload with
  | JObject entries => lookup_entry k entries
  | _ => None
  end.

(** ToBoolean. *)
Definition truthy (v : option json) : bool :=
  match v with
  | None => false
  | Some JNull => false
  | Some (JBool b) => b
  | Some (JNumber n) => negb (PrimFloat.eqb n 0%float || PrimFloat.is_nan n)
  | Some (JString s) => negb (String.eqb s "")
  | Some (JArray _) => true
  | Some (JObject _) => true
  end.

End Js.

(** ** ContentState

    [ContentState] is declared through [typeof siteData], and [site.json] is
    not among the sources.  The records below collect the fields that
    [page.tsx] and [layout.tsx] read or build ([Feature] and [GalleryItem] are
    the literals of [handleSubmit]); every leaf is a string. *)
Record Stat := { stat_value : string; stat_label : string }.

Record Hero := {
  hero_badge : string;
  hero_title : string;
  hero_subtitle : string;
  hero_ctaPrimary : string;
  hero_ctaSecondary : string;
  hero_stats : list Stat;
  hero_image : string;
  hero_decor : list string
}.

Record Feature := {
  feature_title : string;
  feature_text : string;
  feature_tag : string;
  feature_icon : string
}.

Record Service := {
  service_title : string;
  service_text : string;
  service_icon : string
}.

Record GalleryItem := {
  item_title : string;
  item_description : string;
  item_category : string;
  item_src : string
}.

Record Gallery := { categories : list string; items : list GalleryItem }.

Record Link := { link_label : string; link_href : string }.

Record Contact := {
  contact_title : string;
  contact_subtitle : string;
  contact_cta : string;
  contact_email : string;
  contact_phone : string;
  contact_address : string;
  contact_socials : list Link
}.

Record Footer := { footer_text : string; footer_links : list Link }.

Record Meta := {
  meta_title : string;
  meta_description : string;
  meta_keywords : string;
  meta_ogImage : string
}.

Record ContentState := {
  hero : Hero;
  features : list Feature;
  services : list Service;
  gallery : Gallery;
  contact : Contact;
  footer : Footer;
  navigation : list Link;
  meta : Meta
}.

(** ** AdminState *)
Inductive Preview := desktop | tablet | mobile.
Inductive AnimationType := fade | slide | zoom.
Inductive SectionKey := sec_hero | sec_features | sec_services | sec_gallery | sec_contact.
Inductive Role := admin | editor.

Record SectionState := { section_id : SectionKey; label : string; enabled : bool }.
Record FieldConfig := { field_enabled : bool; field_label : string }.
Record FormFields := {
  ff_name : FieldConfig;
  ff_email : FieldConfig;
  ff_phone : FieldConfig;
  ff_message : FieldConfig
}.
Record Recipients := { rcp_email : string; rcp_crm : string }.
Record Submission := {
  sub_name : option string;
  sub_email : option string;
  sub_phone : option string;
  sub_message : option string;
  sub_date : string
}.

(** [lockUntil] and [failedCount] are JavaScript numbers holding integers
    (a millisecond time stamp and a small counter). *)
Record AdminState := {
  preview : Preview;
  animationsEnabled : bool;
  animationType : AnimationType;
  sections : list SectionState;
  formFields : FormFields;
  recipients : Recipients;
  submissions : list Submission;
  lockUntil : Z;
  failedCount : Z;
  history : list ContentState;
  future : list ContentState;
  role : option Role;
  authenticated : bool
}.

Definition HISTORY_LIMIT : nat := 20.
Definition ADMIN_LOCK_THRESHOLD : Z := 3.
Definition ADMIN_LOCK_MS : Z := 5 * 60 * 1000.

(** The object spreads [{ ...s, k: v }] of the handlers, one per shape. *)
Definition with_stacks (h f : list ContentState) (s : AdminState) : AdminState :=
  {| preview := preview s; animationsEnabled := animationsEnabled s;
     animationType := animationType s; sections := sections s;
     formFields := formFields s; recipients := recipients s;
     submissions := submissions s; lockUntil := lockUntil s;
     failedCount := failedCount s; history := h; future := f;
     role := role s; authenticated := authenticated s |}.

Definition with_failedCount (n : Z) (s : AdminState) : AdminState :=
  {| preview := preview s; animationsEnabled := animationsEnabled s;
     animationType := animationType s; sections := sections s;
     formFields := formFields s; recipients := recipients s;
     submissions := submissions s; lockUntil := lockUntil s;
     failedCount := n; history := history s; future := future s;
     role := role s; authenticated := authenticated s |}.

Definition with_lock (n until : Z) (s : AdminState) : AdminState :=
  {| preview := preview s; animationsEnabled := animationsEnabled s;
     animationType := animationType s; sections := sections s;
     formFields := formFields s; recipients := recipients s;
     submissions := submissions s; lockUntil := until;
     failedCount := n; history := history s; future := future s;
     role := role s; authenticated := authenticated s |}.

Definition with_session (r : option Role) (a : bool) (n : Z) (s : AdminState) : AdminState :=
  {| preview := preview s; animationsEnabled := animationsEnabled s;
     animationType := animationType s; sections := sections s;
     formFields := formFields s; recipients := recipients s;
     submissions := submissions s; lockUntil := lockUntil s;
     failedCount := n; history := history s; future := future s;
     role := r; authenticated := a |}.

(** ** Content edits and the undo/redo history (the [Home] component) *)

(** The two pieces of React state the history handlers read and write. *)
Record Store := { content : ContentState; adminState : AdminState }.

(** A deep copy rebuilds every record and every array; strings are immutable
    primitives and are carried over. *)
Definition clone_Stat (s : Stat) : Stat :=
  {| stat_value := stat_value s; stat_label := stat_label s |}.

Definition clone_Hero (h : Hero) : Hero :=
  {| hero_badge := hero_badge h; hero_title := hero_title h;
     hero_subtitle := hero_subtitle h; hero_ctaPrimary := hero_ctaPrimary h;
     hero_ctaSecondary := hero_ctaSecondary h;
     hero_stats := map clone_Stat (hero_stats h);
     hero_image := hero_image h;
     hero_decor := map (fun d : string => d) (hero_decor h) |}.

Definition clone_Feature (f : Feature) : Feature :=
  {| feature_title := feature_title f; feature_text := feature_text f;
     feature_tag := feature_tag f; feature_icon := feature_icon f |}.

Definition clone_Service (s : Service) : Service :=
  {| service_title := service_title s; service_text := service_text s;
     service_icon := service_icon s |}.

Definition clone_GalleryItem (g : GalleryItem) : GalleryItem :=
  {| item_title := item_title g; item_description := item_description g;
     item_category := item_category g; item_src := item_src g |}.

Definition clone_Gallery (g : Gallery) : Gallery :=
  {| categories := map (fun c : string => c) (categories g);
     items := map clone_GalleryItem (items g) |}.

Definition clone_Link (l : Link) : Link :=
  {| link_label := link_label l; link_href := link_href l |}.

Definition clone_Contact (c : Contact) : Contact :=
  {| contact_title := contact_title c; contact_subtitle := contact_subtitle c;
     contact_cta := contact_cta c; contact_email := contact_email c;
     contact_phone := contact_phone c; contact_address := contact_address c;
     contact_socials := map clone_Link (contact_socials c) |}.

Definition clone_Footer (f : Footer) : Footer :=
  {| footer_text := footer_text f; footer_links := map clone_Link (footer_links f) |}.

Definition clone_Meta (m : Meta) : Meta :=
  {| meta_title := meta_title m; meta_description := meta_description m;
     meta_keywords := meta_keywords m; meta_ogImage := meta_ogImage m |}.

Definition structuredClone (c : ContentState) : ContentState :=
  {| hero := clone_Hero (hero c);
     features := map clone_Feature (features c);
     services := map clone_Service (services c);
     gallery := clone_Gallery (gallery c);
     contact := clone_Contact (contact c);
     footer := clone_Footer (footer c);
     navigation := map clone_Link (navigation c);
     meta := clone_Meta (meta c) |}.

(** [JSON.parse(JSON.stringify(c))]: on a tree of plain objects, arrays and
    strings, serialising and parsing build the same copy. *)
Definition JSON_roundtrip (c : ContentState) : ContentState := structuredClone c.

(** [pushHistory]; [[snapshot, ...s.history].slice(0, HISTORY_LIMIT)] keeps the
    first [HISTORY_LIMIT] entries, newest first. *)
Definition pushHistory (snapshot : ContentState) (s : AdminState) : AdminState :=
  with_stacks (take HISTORY_LIMIT (snapshot :: history s)) [] s.

(** [updateContent]; [hasStructuredClone] is the test
    [typeof structuredClone === "function"].  The updater given to
    [setContent] receives the latest content and runs once per call (the
    second run that React makes in development builds is not modelled). *)
Definition updateContent (hasStructuredClone : bool)
    (mutate : ContentState -> ContentState) (st : Store) : Store :=
  let current := content st in
  let snap :=
    if hasStructuredClone then structuredClone current else JSON_roundtrip current in
  let next := mutate snap in
  {| content := next; adminState := pushHistory current (adminState st) |}.

(** [handleUndo].  The updater given to [setAdminState] receives the latest
    admin state [s]; the [content] it pushes is the variable of the render the
    handler was created in, [rendered] here. *)
Definition handleUndo (rendered : ContentState) (st : Store) : Store :=
  let s := adminState st in
  match history s with
  | [] => st
  | latest :: rest =>
      let future' := take HISTORY_LIMIT (rendered :: future s) in
      {| content := latest; adminState := with_stacks rest future' s |}
  end.

(** [handleRedo]. *)
Definition handleRedo (rendered : ContentState) (st : Store) : Store :=
  let s := adminState st in
  match future s with
  | [] => st
  | latest :: rest =>
      let history' := take HISTORY_LIMIT (rendered :: history s) in
      {| content := latest; adminState := with_stacks history' rest s |}
  end.

(** A press of the undo or redo button: the handler of the current render
    runs, so the content it read at render time is the current content. *)
Definition undo (st : Store) : Store := handleUndo (content st) st.
Definition redo (st : Store) : Store := handleRedo (content st) st.

(** The events of the history manager, and a run of them. *)
Inductive HistoryEvent :=
  | Edit (mutate : ContentState -> ContentState)
  | Undo
  | Redo.

Definition step_history (hasStructuredClone : bool) (st : Store) (e : HistoryEvent) : Store :=
  match e with
  | Edit mutate => updateContent hasStructuredClone mutate st
  | Undo => undo st
  | Redo => redo st
  end.

Definition run_history (hasStructuredClone : bool) (es : list HistoryEvent) (st : Store) : Store :=
  fold_left (step_history hasStructuredClone) es st.

Definition edits (hasStructuredClone : bool)
    (ms : list (ContentState -> ContentState)) (st : Store) : Store :=
  run_history hasStructuredClone (map Edit ms) st.

Definition undos (n : nat) (st : Store) : Store :=
  Nat.iter n undo st.

(** The stacks of a store, both within the limit. *)
Definition bounded (st : Store) : Prop :=
  (length (history (adminState st)) <= HISTORY_LIMIT)%nat
  /\ (length (future (adminState st)) <= HISTORY_LIMIT)%nat.

(** ** The gallery filter *)
Definition filteredGallery (filter : string) (galleryItems : list GalleryItem)
    : list GalleryItem :=
  if String.eqb filter "Все" then galleryItems
  else List.filter (fun item => String.eqb (item_category item) filter) galleryItems.

(** ** The mock authentication gate (the [AdminPanel] component) *)
Inductive Step := step_login | step_code.

Record LoginForm := { email : string; password : string; code : string }.

Record MockUser := {
  user_email : string;
  user_password : string;
  user_role : Role;
  tfa : bool
}.

Definition mockUsers : list MockUser :=
  [ {| user_email := "admin@example.com"; user_password := "admin123";
       user_role := admin; tfa := true |};
    {| user_email := "editor@example.com"; user_password := "editor123";
       user_role := editor; tfa := false |} ].

(** The state of the panel that the two handlers read and write ([open],
    [feedback] and [draft] belong to the card form). *)
Record PanelState := {
  authOpen : bool;
  authError : option string;
  step : Step;
  loginForm : LoginForm
}.

Definition msg_locked : string := "Доступ временно заблокирован. Попробуйте позже.".
Definition msg_bad_credentials : string := "Неверный логин или пароль".
Definition msg_bad_code : string := "Неверный код 2FA (используй 000000)".
Definition msg_session_expired : string := "Сессия устарела, перезайдите".

(** [adminLocked], computed by [Home] at each render from the admin state and
    from [now], the clock reading kept in React state (taken at mount, then
    once a second while a lockout expiry is set). *)
Definition adminLocked (s : AdminState) (now : Z) : bool :=
  (0 <? lockUntil s)%Z && (now <? lockUntil s)%Z.

(** The predicate given to [mockUsers.find]. *)
Definition credentials_match (form : LoginForm) (u : MockUser) : bool :=
  String.eqb (Js.toLowerCase (user_email u)) (Js.toLowerCase (email form))
  && String.eqb (user_password u) (password form).

Definition set_error (e : option string) (p : PanelState) : PanelState :=
  {| authOpen := authOpen p; authError := e; step := step p; loginForm := loginForm p |}.

(** The failure update of [handleLogin]; [dateNow] is the reading of
    [Date.now()] inside the updater. *)
Definition register_failure (dateNow : Z) (s : AdminState) : AdminState :=
  let failed := failedCount s + 1 in
  if (ADMIN_LOCK_THRESHOLD <=? failed)%Z
  then with_lock 0 (dateNow + ADMIN_LOCK_MS) s
  else with_failedCount failed s.

(** An exception thrown by a handler. *)
Inductive JsError :=
  | ReferenceError (name : string)
  | TypeError (callee : string).

(** What the body of [AdminPanel] finds for the two names its handlers use and
    the component does not define: [adminLocked], an identifier that is free
    in [AdminPanel] ([None] when no enclosing scope binds it), and
    [setAdminState], a prop ([false] when the parent passes none). *)
Record PanelEnv := { env_adminLocked : option bool; env_setAdminState : bool }.

(** The panel as [page.tsx] composes it.  [AdminPanel] is declared at module
    level, and the only declaration of [adminLocked] is local to [Home]
    (line 837); [Home] mounts the panel with [onAddFeature] and
    [onAddGallery] alone (lines 854-857). *)
Definition as_mounted : PanelEnv :=
  {| env_adminLocked := None; env_setAdminState := false |}.

(** A run of a handler: the panel and admin state its completed calls leave,
    and the exception that ended it, if one did. *)
Record Ran := {
  ran_panel : PanelState;
  ran_admin : AdminState;
  ran_error : option JsError
}.

Definition returned (p : PanelState) (s : AdminState) : Ran :=
  {| ran_panel := p; ran_admin := s; ran_error := None |}.

Definition threw (e : JsError) (p : PanelState) (s : AdminState) : Ran :=
  {| ran_panel := p; ran_admin := s; ran_error := Some e |}.

(** [handleLogin].  Its first statement reads [adminLocked]; the updater given
    to [setAdminState] on a mismatch is [register_failure]. *)
Definition handleLogin (env : PanelEnv) (dateNow : Z)
    (p : PanelState) (s : AdminState) : Ran :=
  match env_adminLocked env with
  | None => threw (ReferenceError "adminLocked") p s
  | Some true => returned (set_error (Some msg_locked) p) s
  | Some false =>
      match find (credentials_match (loginForm p)) mockUsers with
      | None =>
          let p1 := set_error (Some msg_bad_credentials) p in
          if env_setAdminState env
          then returned p1 (register_failure dateNow s)
          else threw (TypeError "setAdminState") p1 s
      | Some found =>
          if tfa found
          then returned {| authOpen := authOpen p; authError := None;
                           step := step_code; loginForm := loginForm p |} s
          else if env_setAdminState env
          then returned {| authOpen := false; authError := None; step := step p;
                           loginForm := loginForm p |}
                        (with_session (Some (user_role found)) true 0 s)
          else threw (TypeError "setAdminState") p s
      end
  end.

(** [handleCode]. *)
Definition handleCode (env : PanelEnv)
    (p : PanelState) (s : AdminState) : Ran :=
  match env_adminLocked env with
  | None => threw (ReferenceError "adminLocked") p s
  | Some true => returned (set_error (Some msg_locked) p) s
  | Some false =>
      if negb (String.eqb (Js.trim (code (loginForm p))) "000000")
         && negb (String.eqb (Js.trim (code (loginForm p))) "123456")
      then returned (set_error (Some msg_bad_code) p) s
      else
        match find (credentials_match (loginForm p)) mockUsers with
        | None =>
            returned {| authOpen := authOpen p;
                        authError := Some msg_session_expired;
                        step := step_login; loginForm := loginForm p |} s
        | Some found =>
            if env_setAdminState env
            then returned {| authOpen := false; authError := None; step := step p;
                             loginForm := loginForm p |}
                          (with_session (Some (user_role found)) true 0 s)
            else threw (TypeError "setAdminState") p s
        end
  end.

(** ** Persistence of the admin preferences *)

(** [Partial<AdminState>]: every key may be absent.  [role] may be present and
    hold [null]. *)
Record PartialAdminState := {
  p_preview : option Preview;
  p_animationsEnabled : option bool;
  p_animationType : option AnimationType;
  p_sections : option (list SectionState);
  p_formFields : option FormFields;
  p_recipients : option Recipients;
  p_submissions : option (list Submission);
  p_lockUntil : option Z;
  p_failedCount : option Z;
  p_history : option (list ContentState);
  p_future : option (list ContentState);
  p_role : option (option Role);
  p_authenticated : option bool
}.

Definition defaultState : AdminState :=
  {| preview := desktop;
     animationsEnabled := true;
     animationType := fade;
     sections :=
       [ {| section_id := sec_hero; label := "Hero"; enabled := true |};
         {| section_id := sec_features; label := "Преимущества"; enabled := true |};
         {| section_id := sec_services; label := "Функционал"; enabled := true |};
         {| section_id := sec_gallery; label := "Галерея"; enabled := true |};
         {| section_id := sec_contact; label := "Контакты"; enabled := true |} ];
     formFields :=
       {| ff_name := {| field_enabled := true; field_label := "Имя" |};
          ff_email := {| field_enabled := true; field_label := "Email" |};
          ff_phone := {| field_enabled := false; field_label := "Телефон" |};
          ff_message := {| field_enabled := true; field_label := "Сообщение" |} |};
     recipients := {| rcp_email := "hello@example.com";
                      rcp_crm := "https://crm.local/webhook" |};
     submissions := [];
     lockUntil := 0;
     failedCount := 0;
     history := [];
     future := [];
     role := None;
     authenticated := false |}.

(** [{ ...defaultState, ...parsed, history: [], future: [] }]: a key of
    [parsed] replaces the default, then the two stacks are set. *)
Definition spread_initial (d : AdminState) (parsed : PartialAdminState) : AdminState :=
  {| preview := default (preview d) (p_preview parsed);
     animationsEnabled := default (animationsEnabled d) (p_animationsEnabled parsed);
     animationType := default (animationType d) (p_animationType parsed);
     sections := default (sections d) (p_sections parsed);
     formFields := default (formFields d) (p_formFields parsed);
     recipients := default (recipients d) (p_recipients parsed);
     submissions := default (submissions d) (p_submissions parsed);
     lockUntil := default (lockUntil d) (p_lockUntil parsed);
     failedCount := default (failedCount d) (p_failedCount parsed);
     history := [];
     future := [];
     role := default (role d) (p_role parsed);
     authenticated := default (authenticated d) (p_authenticated parsed) |}.

(** The initialiser of [adminState].  [hasWindow] is
    [typeof window !== "undefined"], [raw] the result of
    [localStorage.getItem(ADMIN_KEY)] ([None] for [null]), and [JSON_parse]
    the parser, [None] where it throws; a parsed value that is not an object
    has none of the keys. *)
Definition adminState_init (hasWindow : bool) (raw : option string)
    (JSON_parse : string -> option PartialAdminState) : AdminState :=
  if hasWindow then
    match raw with
    | Some text =>
        if negb (String.eqb text "") then
          match JSON_parse text with
          | Some parsed => spread_initial defaultState parsed
          | None => defaultState
          end
        else defaultState
    | None => defaultState
    end
  else defaultState.

(** [toStore], the object the persistence effect serialises. *)
Definition toStore (s : AdminState) : PartialAdminState :=
  {| p_preview := Some (preview s);
     p_animationsEnabled := Some (animationsEnabled s);
     p_animationType := Some (animationType s);
     p_sections := Some (sections s);
     p_formFields := Some (formFields s);
     p_recipients := Some (recipients s);
     p_submissions := None;
     p_lockUntil := None;
     p_failedCount := None;
     p_history := None;
     p_future := None;
     p_role := None;
     p_authenticated := None |}.

(** The persistence effect: nothing before the first render has completed
    ([loadedRef.current] false), [toStore] afterwards. *)
Definition persist_admin (loaded : bool) (s : AdminState) : option PartialAdminState :=
  if loaded then Some (toStore s) else None.

(** ** The contact endpoint ([route.ts]) *)
Record Response := { status : Z; body : Js.json }.

(** [NextResponse.json(body, init)]; the status is 200 when [init] gives none. *)
Definition NextResponse_json (b : Js.json) (init_status : option Z) : Response :=
  {| status := default 200 init_status; body := b |}.

(** [Response.ok]. *)
Definition response_ok (r : Response) : bool :=
  (200 <=? status r)%Z && (status r <=? 299)%Z.

(** The outcome of [await request.json()]: the parsed body, or the error
    thrown when the body is not JSON, carried as the text [String(error)]. *)
Inductive Awaited :=
  | Resolved (payload : Js.json)
  | Rejected (error : string).

Record Request := { request_json : Awaited }.

Definition POST (request : Request) : Response :=
  match request_json request with
  | Resolved payload =>
      if negb (Js.truthy (Js.optional_get payload "email"))
         || negb (Js.truthy (Js.optional_get payload "name"))
         || negb (Js.truthy (Js.optional_get payload "message"))
      then NextResponse_json (Js.JObject [("ok", Js.JBool false)]) (Some 400)
      else NextResponse_json
             (Js.JObject [("ok", Js.JBool true); ("received", payload)]) None
  | Rejected error =>
      NextResponse_json
        (Js.JObject [("ok", Js.JBool false); ("error", Js.JString error)]) (Some 500)
  end.

(** ** Notions used in the statements *)

Definition nonempty (t : string) : bool := negb (String.eqb t "").

(** The three checks of the handler. *)
Definition required_truthy (payload : Js.json) : bool :=
  Js.truthy (Js.optional_get payload "email")
  && Js.truthy (Js.optional_get payload "name")
  && Js.truthy (Js.optional_get payload "message").

(** The body holds the key with a string as its value. *)
Definition has_string_field (payload : Js.json) (k : string) : Prop :=
  exists s, Js.optional_get payload k = Some (Js.JString s).

(** ** Sample values for the examples *)
Definition blank_content : ContentState :=
  {| hero := {| hero_badge := ""; hero_title := ""; hero_subtitle := "";
                hero_ctaPrimary := ""; hero_ctaSecondary := ""; hero_stats := [];
                hero_image := ""; hero_decor := [] |};
     features := []; services := [];
     gallery := {| categories := ["Все"; "UI"]; items := [] |};
     contact := {| contact_title := ""; contact_subtitle := ""; contact_cta := "";
                   contact_email := ""; contact_phone := ""; contact_address := "";
                   contact_socials := [] |};
     footer := {| footer_text := ""; footer_links := [] |};
     navigation := [];
     meta := {| meta_title := ""; meta_description := ""; meta_keywords := "";
                meta_ogImage := "" |} |}.

(** An edit of the kind the admin panel makes: a feature card put in front. *)
Definition addFeature (item : Feature) (draft : ContentState) : ContentState :=
  {| hero := hero draft; features := item :: features draft;
     services := services draft; gallery := gallery draft;
     contact := contact draft; footer := footer draft;
     navigation := navigation draft; meta := meta draft |}.

Definition card (t : string) : Feature :=
  {| feature_title := t; feature_text := "text"; feature_tag := "Admin";
     feature_icon := "/images/feature-4.svg" |}.


(** The initial panel with a filled form. *)
Definition login_panel (e pw c : string) : PanelState :=
  {| authOpen := true; authError := None; step := step_login;
     loginForm := {| email := e; password := pw; code := c |} |}.

(** The text of a stored value that holds the two session keys,
    [{"role":"admin","authenticated":true}], and a parser that reads that text
    and the text [{}] and throws on every other. *)
Definition quoted (s : string) : string :=
  String (ascii_of_nat 34) s ++ String (ascii_of_nat 34) "".

Definition session_blob : string :=
  "{" ++ quoted "role" ++ ":" ++ quoted "admin" ++ ","
      ++ quoted "authenticated" ++ ":true}".

Definition no_keys : PartialAdminState :=
  {| p_preview := None; p_animationsEnabled := None; p_animationType := None;
     p_sections := None; p_formFields := None; p_recipients := None;
     p_submissions := None; p_lockUntil := None; p_failedCount := None;
     p_history := None; p_future := None; p_role := None;
     p_authenticated := None |}.

Definition session_keys : PartialAdminState :=
  {| p_preview := None; p_animationsEnabled := None; p_animationType := None;
     p_sections := None; p_formFields := None; p_recipients := None;
     p_submissions := None; p_lockUntil := None; p_failedCount := None;
     p_history := None; p_future := None; p_role := Some (Some admin);
     p_authenticated := Some true |}.

Definition sample_parse (text : string) : option PartialAdminState :=
  if String.eqb text session_blob then Some session_keys
  else if String.eqb text "{}" then Some no_keys
  else None.

(** * Properties *)

(** ** Trimming runs to its end *)
Section Trim.

Lemma strip_prefix_length p : forall s r,
  Js.strip_prefix p s = Some r ->
  String.length s = (String.length p + String.length r)%nat.
Proof.
  induction p as [|a p IH]; intros s r H; simpl in H.
  - now injection H as ->.
  - destruct s as [|b s]; [discriminate|].
    destruct (Ascii.eqb a b); [|discriminate].
    simpl. now rewrite (IH _ _ H).
Qed.

Lemma strip_first_shorter tokens : forall s r,
  forallb nonempty tokens = true ->
  Js.strip_first tokens s = Some r ->
  (String.length r < String.length s)%nat.
Proof.
  induction tokens as [|t ts IH]; intros s r Hne H; simpl in *; [discriminate|].
  apply andb_prop in Hne as [Ht Hts].
  destruct (Js.strip_prefix t s) as [r'|] eqn:E.
  - injection H as <-. apply strip_prefix_length in E.
    destruct t; [discriminate Ht|]. simpl in E. lia.
  - now apply IH.
Qed.

Lemma strip_first_empty tokens :
  forallb nonempty tokens = true -> Js.strip_first tokens "" = None.
Proof.
  induction tokens as [|t ts IH]; intros Hne; simpl in *; [reflexivity|].
  apply andb_prop in Hne as [Ht Hts].
  destruct t; [discriminate Ht|]. simpl. now apply IH.
Qed.

(** With a fuel of the length of the string, the loop stops because no token
    is left to strip, not because the fuel ran out. *)
Lemma trim_loop_done tokens fuel : forall s,
  forallb nonempty tokens = true ->
  (String.length s <= fuel)%nat ->
  Js.strip_first tokens (Js.trim_loop tokens fuel s) = None.
Proof.
  induction fuel as [|fuel IH]; intros s Hne Hlen; simpl.
  - destruct s; [now apply strip_first_empty | simpl in Hlen; lia].
  - destruct (Js.strip_first tokens s) as [r|] eqn:E; [|exact E].
    apply IH; [exact Hne|].
    pose proof (strip_first_shorter _ _ _ Hne E). lia.
Qed.

Lemma string_rev_length s : String.length (Js.string_rev s) = String.length s.
Proof.
  unfold Js.string_rev.
  rewrite <- (string_of_list_ascii_of_string s) at 2.
  generalize (list_ascii_of_string s). intros l.
  assert (Hlen : forall k, String.length (string_of_list_ascii k) = length k)
    by (induction k; simpl; congruence).
  now rewrite !Hlen, length_rev.
Qed.

Lemma string_rev_involutive s : Js.string_rev (Js.string_rev s) = s.
Proof.
  unfold Js.string_rev.
  now rewrite list_ascii_of_string_of_list_ascii, rev_involutive,
    string_of_list_ascii_of_string.
Qed.

(** The two loops of [trim] stop because no white space is left: at the end
    of what [trim] returns, and at the start of what [trimStart] returns. *)
Lemma trim_done s :
  Js.strip_first (map Js.string_rev Js.whitespace) (Js.string_rev (Js.trim s)) = None
  /\ Js.strip_first Js.whitespace (Js.trimStart s) = None.
Proof.
  split.
  - unfold Js.trim, Js.trimEnd. rewrite string_rev_involutive.
    apply trim_loop_done; [vm_compute; reflexivity | now rewrite string_rev_length].
  - unfold Js.trimStart. apply trim_loop_done; [vm_compute; reflexivity | lia].
Qed.

Example trim_padded : Js.trim "  123456 " = "123456".
Proof. reflexivity. Qed.

Example trim_inner : Js.trim " 12 34 " = "12 34".
Proof. reflexivity. Qed.

Example trim_no_break_space :
  Js.trim (Js.bytes [194; 160]%nat ++ "000000" ++ Js.bytes [226; 128; 168; 10]%nat)
  = "000000".
Proof. reflexivity. Qed.

Example toLowerCase_email : Js.toLowerCase "Admin@Example.COM" = "admin@example.com".
Proof. reflexivity. Qed.

End Trim.

(** ** Deep copies *)
Section Clone.

Lemma map_copy {A} (f : A -> A) (l : list A) : (forall x, f x = x) -> map f l = l.
Proof.
  intros Hf. induction l as [|x l IH]; simpl; [reflexivity|].
  now rewrite Hf, IH.
Qed.

Lemma clone_Link_eq l : clone_Link l = l.
Proof. now destruct l. Qed.

Lemma clone_Hero_eq h : clone_Hero h = h.
Proof.
  destruct h; unfold clone_Hero; simpl.
  rewrite !map_copy; [reflexivity | reflexivity | now intros []].
Qed.

Lemma clone_Gallery_eq g : clone_Gallery g = g.
Proof.
  destruct g; unfold clone_Gallery; simpl.
  rewrite !map_copy; [reflexivity | now intros [] | reflexivity].
Qed.

Lemma clone_Contact_eq c : clone_Contact c = c.
Proof.
  destruct c; unfold clone_Contact; simpl.
  now rewrite (map_copy clone_Link) by apply clone_Link_eq.
Qed.

Lemma clone_Footer_eq f : clone_Footer f = f.
Proof.
  destruct f; unfold clone_Footer; simpl.
  now rewrite (map_copy clone_Link) by apply clone_Link_eq.
Qed.

(** A deep copy has the value of its source. *)
Lemma structuredClone_eq c : structuredClone c = c.
Proof.
  destruct c as [h fs ss g ct ft nav m]; unfold structuredClone; simpl.
  rewrite clone_Hero_eq, clone_Gallery_eq, clone_Contact_eq, clone_Footer_eq.
  rewrite (map_copy clone_Feature) by now intros [].
  rewrite (map_copy clone_Service) by now intros [].
  rewrite (map_copy clone_Link) by apply clone_Link_eq.
  now destruct m.
Qed.

End Clone.

(** ** The history manager *)
Section History.

Variable hasStructuredClone : bool.

Lemma length_take_limit (l : list ContentState) :
  (length (take HISTORY_LIMIT l) <= HISTORY_LIMIT)%nat.
Proof. rewrite length_take. lia. Qed.

(** C2. An edit installs the mutation of a deep copy of the current content
    (a copy that has the value of the current content), leaves a history made
    of the pre-edit content followed by the first 19 entries of the old
    history, so at most 20 entries with the oldest one dropped, and empties
    the future stack; the other admin fields stay, and a redo right after the
    edit changes nothing. *)
Theorem updateContent_spec (mutate : ContentState -> ContentState) (st : Store) :
  let st' := updateContent hasStructuredClone mutate st in
  content st' = mutate (structuredClone (content st))
  /\ structuredClone (content st) = content st
  /\ history (adminState st')
     = content st :: take (HISTORY_LIMIT - 1) (history (adminState st))
  /\ history (adminState st')
     = take HISTORY_LIMIT (content st :: history (adminState st))
  /\ (length (history (adminState st')) <= HISTORY_LIMIT)%nat
  /\ future (adminState st') = []
  /\ adminState st' = with_stacks (history (adminState st')) [] (adminState st)
  /\ redo st' = st'.
Proof.
  assert (Hcopy : (if hasStructuredClone then structuredClone (content st)
                   else JSON_roundtrip (content st)) = structuredClone (content st))
    by now destruct hasStructuredClone.
  unfold updateContent; cbn zeta; rewrite Hcopy.
  split_and!; try reflexivity.
  - apply structuredClone_eq.
  - apply (length_take_limit (content st :: history (adminState st))).
Qed.

Lemma length_tail_le (latest : ContentState) rest :
  (length (latest :: rest) <= HISTORY_LIMIT -> length rest <= HISTORY_LIMIT)%nat.
Proof. simpl. lia. Qed.

Lemma undo_cons st latest rest :
  history (adminState st) = latest :: rest ->
  undo st
  = {| content := latest;
       adminState := with_stacks rest
                       (take HISTORY_LIMIT (content st :: future (adminState st)))
                       (adminState st) |}.
Proof. intros H. unfold undo, handleUndo. now rewrite H. Qed.

Lemma redo_cons st latest rest :
  future (adminState st) = latest :: rest ->
  redo st
  = {| content := latest;
       adminState := with_stacks
                       (take HISTORY_LIMIT (content st :: history (adminState st)))
                       rest (adminState st) |}.
Proof. intros H. unfold redo, handleRedo. now rewrite H. Qed.

Lemma undo_nil st : history (adminState st) = [] -> undo st = st.
Proof. intros H. unfold undo, handleUndo. now rewrite H. Qed.

Lemma redo_nil st : future (adminState st) = [] -> redo st = st.
Proof. intros H. unfold redo, handleRedo. now rewrite H. Qed.

(** C3. Undo, that is [handleUndo] of the current render, on a non-empty
    history installs its newest entry, keeps the rest as the history and puts
    the current content in front of the future stack, cut to 20 entries; redo
    does the same with the two stacks exchanged; on an empty stack either one
    returns the state it was given. *)
Theorem undo_redo_spec (st : Store) :
  undo st = handleUndo (content st) st
  /\ redo st = handleRedo (content st) st
  /\ (forall latest rest, history (adminState st) = latest :: rest ->
     content (undo st) = latest
     /\ history (adminState (undo st)) = rest
     /\ future (adminState (undo st))
        = take HISTORY_LIMIT (content st :: future (adminState st))
     /\ (length (future (adminState (undo st))) <= HISTORY_LIMIT)%nat
     /\ adminState (undo st)
        = with_stacks rest (future (adminState (undo st))) (adminState st))
  /\ (forall latest rest, future (adminState st) = latest :: rest ->
     content (redo st) = latest
     /\ future (adminState (redo st)) = rest
     /\ history (adminState (redo st))
        = take HISTORY_LIMIT (content st :: history (adminState st))
     /\ (length (history (adminState (redo st))) <= HISTORY_LIMIT)%nat
     /\ adminState (redo st)
        = with_stacks (history (adminState (redo st))) rest (adminState st))
  /\ (history (adminState st) = [] -> undo st = st)
  /\ (future (adminState st) = [] -> redo st = st).
Proof.
  split_and!; [reflexivity | reflexivity | | | |].
  - intros latest rest H. rewrite (undo_cons _ _ _ H).
    split_and!; try reflexivity.
    apply (length_take_limit (content st :: future (adminState st))).
  - intros latest rest H. rewrite (redo_cons _ _ _ H).
    split_and!; try reflexivity.
    apply (length_take_limit (content st :: history (adminState st))).
  - apply undo_nil.
  - apply redo_nil.
Qed.

Lemma step_history_bounded st e :
  bounded st -> bounded (step_history hasStructuredClone st e).
Proof.
  intros [Hh Hf]. destruct e as [mutate| |]; simpl.
  - split; [|simpl; lia].
    apply (length_take_limit (content st :: history (adminState st))).
  - destruct (history (adminState st)) as [|latest rest] eqn:E.
    + rewrite (undo_nil _ E). split; [now rewrite E | exact Hf].
    + rewrite (undo_cons _ _ _ E). split.
      * now apply (length_tail_le latest).
      * apply (length_take_limit (content st :: future (adminState st))).
  - destruct (future (adminState st)) as [|latest rest] eqn:E.
    + rewrite (redo_nil _ E). split; [exact Hh | now rewrite E].
    + rewrite (redo_cons _ _ _ E). split.
      * apply (length_take_limit (content st :: history (adminState st))).
      * now apply (length_tail_le latest).
Qed.

Lemma run_history_bounded es : forall st,
  bounded st -> bounded (run_history hasStructuredClone es st).
Proof.
  induction es as [|e es IH]; intros st Hb; [exact Hb|].
  apply IH, step_history_bounded, Hb.
Qed.

(** C4. Whatever edits, undos and redos are run from a state whose two stacks
    are empty, the state reached has at most 20 history entries and at most 20
    future entries. *)
Theorem stacks_never_exceed_limit (es : list HistoryEvent)
    (c : ContentState) (s : AdminState) :
  let st := run_history hasStructuredClone es
              {| content := c; adminState := with_stacks [] [] s |} in
  (length (history (adminState st)) <= 20)%nat
  /\ (length (future (adminState st)) <= 20)%nat.
Proof.
  apply run_history_bounded. split; simpl; lia.
Qed.

Lemma undos_succ n st : undos (S n) st = undos n (undo st).
Proof. unfold undos. apply Nat.iter_succ_r. Qed.

(** Undoing reads the history only: a state with the same content and a
    history cut to its first [k] entries undoes alike for [k] steps. *)
Lemma undos_prefix n : forall (u s : Store) (k : nat),
  content u = content s ->
  history (adminState u) = take k (history (adminState s)) ->
  (n <= k)%nat ->
  content (undos n u) = content (undos n s).
Proof.
  induction n as [|n IH]; intros u s k Hc Hh Hk; [exact Hc|].
  rewrite !undos_succ.
  destruct (history (adminState s)) as [|x r] eqn:E.
  - rewrite take_nil in Hh.
    rewrite (undo_nil _ Hh), (undo_nil _ E).
    apply (IH u s k); [exact Hc | now rewrite Hh, E, take_nil | lia].
  - destruct k as [|k]; [lia|]. simpl in Hh.
    rewrite (undo_cons _ _ _ Hh), (undo_cons _ _ _ E).
    apply (IH _ _ k); [reflexivity | reflexivity | lia].
Qed.

Lemma edits_snoc ms m st :
  edits hasStructuredClone (ms ++ [m]) st
  = updateContent hasStructuredClone m (edits hasStructuredClone ms st).
Proof. unfold edits, run_history. now rewrite map_app, fold_left_app. Qed.

Lemma undo_after_edit m st :
  content (undo (updateContent hasStructuredClone m st)) = content st
  /\ history (adminState (undo (updateContent hasStructuredClone m st)))
     = take (HISTORY_LIMIT - 1) (history (adminState st)).
Proof.
  rewrite (undo_cons _ (content st)
             (take (HISTORY_LIMIT - 1) (history (adminState st)))); [|reflexivity].
  now split.
Qed.

(** C1, as the code has it. After any edits, [n] undos with [n] at most the
    number of edits and at most the history limit of 20 bring back the content
    that held before the last [n] edits. *)
Theorem undo_restores_content (ms : list (ContentState -> ContentState)) :
  forall (st : Store) (n : nat),
  (n <= length ms)%nat ->
  (n <= HISTORY_LIMIT)%nat ->
  content (undos n (edits hasStructuredClone ms st))
  = content (edits hasStructuredClone (take (length ms - n) ms) st).
Proof.
  induction ms as [|m ms IH] using rev_ind; intros st n Hn Hl.
  - assert (n = 0%nat) as -> by (simpl in Hn; lia). reflexivity.
  - destruct n as [|n].
    + now rewrite Nat.sub_0_r, firstn_all.
    + rewrite length_app in *. change (length [m]) with 1%nat in *.
      replace (length ms + 1 - S n)%nat with (length ms - n)%nat by lia.
      rewrite take_app_le by lia.
      rewrite <- IH by (unfold HISTORY_LIMIT in *; lia).
      rewrite edits_snoc, undos_succ.
      destruct (undo_after_edit m (edits hasStructuredClone ms st)) as [Hc Hh].
      apply (undos_prefix n _ _ (HISTORY_LIMIT - 1) Hc Hh).
      unfold HISTORY_LIMIT in *; lia.
Qed.

End History.

(** C1 with the limit left out fails: 21 edits and then 21 undos reach the
    content before the last 20 edits, not the content before all 21. *)
Lemma undo_beyond_limit_loses_content :
  let ms := map (fun t => addFeature (card t)) (replicate 21 "card") in
  let st := {| content := blank_content; adminState := defaultState |} in
  (21 <= length ms)%nat
  /\ content (undos 21 (edits true ms st))
     <> content (edits true (take (length ms - 21) ms) st)
  /\ content (undos 21 (edits true ms st))
     = content (edits true (take (length ms - 20) ms) st).
Proof.
  cbv zeta. split_and!.
  - vm_compute. lia.
  - vm_compute. discriminate.
  - vm_compute. reflexivity.
Qed.

(** Three edits, two undos: the content after the first edit is back. *)
Lemma undo_restores_content_witness :
  let ms := map (fun t => addFeature (card t)) ["a"; "b"; "c"] in
  let st := {| content := blank_content; adminState := defaultState |} in
  content (undos 2 (edits false ms st))
  = content (edits false (take (length ms - 2) ms) st).
Proof.
  cbv zeta. apply (undo_restores_content false); vm_compute; lia.
Defined.

(** After two edits: undo shows the first edit, redo has nothing to do, and
    redo after undo shows the second edit again. *)
Lemma undo_redo_spec_witness :
  let st := edits true [addFeature (card "a"); addFeature (card "b")]
              {| content := blank_content; adminState := defaultState |} in
  content (undo st) = addFeature (card "a") blank_content
  /\ redo st = st
  /\ content (redo (undo st)) = content st.
Proof.
  cbv zeta. split_and!.
  - eapply (undo_redo_spec (edits true _ _)). vm_compute. reflexivity.
  - eapply (undo_redo_spec (edits true _ _)). vm_compute. reflexivity.
  - eapply (undo_redo_spec (undo (edits true _ _))). vm_compute. reflexivity.
Defined.


(** ** The gallery filter *)
Section GalleryFilter.

Lemma filter_sublist {A} (f : A -> bool) (l : list A) : sublist (List.filter f l) l.
Proof.
  induction l as [|x l IH]; simpl; [constructor|].
  destruct (f x); now constructor.
Qed.

(** C9. The filter "Все" returns the item list itself; any other filter
    returns the items whose category is equal to it, each as often as the list
    has it and in the order of the list. *)
Theorem filteredGallery_spec (filter : string) (galleryItems : list GalleryItem) :
  filteredGallery "Все" galleryItems = galleryItems
  /\ (filter <> "Все" ->
      filteredGallery filter galleryItems
      = List.filter (fun item => bool_decide (item_category item = filter)) galleryItems
      /\ (forall item, In item (filteredGallery filter galleryItems)
                       <-> In item galleryItems /\ item_category item = filter)
      /\ sublist (filteredGallery filter galleryItems) galleryItems).
Proof.
  split; [reflexivity|]. intros Hne. unfold filteredGallery.
  destruct (String.eqb filter "Все") eqn:E; [now apply String.eqb_eq in E|].
  split_and!.
  - apply filter_ext. intros item.
    destruct (String.eqb_spec (item_category item) filter) as [H|H].
    + now rewrite bool_decide_eq_true_2.
    + now rewrite bool_decide_eq_false_2.
  - intros item. rewrite filter_In. now rewrite String.eqb_eq.
  - apply filter_sublist.
Qed.

End GalleryFilter.

(** The filter "UI" on four items, three of them in that category. *)
Lemma filteredGallery_spec_witness :
  let mk c t := {| item_title := t; item_description := ""; item_category := c;
                   item_src := "/images/gallery-5.svg" |} in
  let l := [mk "UI" "a"; mk "3D" "b"; mk "UI" "c"; mk "UI" "a"] in
  filteredGallery "UI" l = [mk "UI" "a"; mk "UI" "c"; mk "UI" "a"].
Proof.
  cbv zeta.
  etransitivity; [apply (filteredGallery_spec "UI"); discriminate | reflexivity].
Defined.

(** ** The contact endpoint *)
Section ContactEndpoint.

Lemma POST_resolved payload :
  POST {| request_json := Resolved payload |}
  = if required_truthy payload
    then {| status := 200;
            body := Js.JObject [("ok", Js.JBool true); ("received", payload)] |}
    else {| status := 400; body := Js.JObject [("ok", Js.JBool false)] |}.
Proof.
  unfold POST, required_truthy; simpl.
  destruct (Js.truthy (Js.optional_get payload "email"));
    destruct (Js.truthy (Js.optional_get payload "name"));
    destruct (Js.truthy (Js.optional_get payload "message")); reflexivity.
Qed.

Lemma truthy_nonempty_string payload k s :
  Js.optional_get payload k = Some (Js.JString s) -> s <> "" ->
  Js.truthy (Js.optional_get payload k) = true.
Proof.
  intros -> Hs. simpl. destruct (String.eqb_spec s ""); [contradiction|reflexivity].
Qed.

(** C8, as the code has it. The handler answers with a success (status 200,
    [ok: true], the body echoed) exactly when the body parses and its
    [email], [name] and [message] are all truthy; three non-empty strings are
    enough. A body that parses with one of the three missing, or falsy,
    gets [ok: false] with status 400; a body that does not parse gets
    [ok: false] with status 500. *)
Theorem POST_spec (request : Request) :
  (response_ok (POST request) = true
   <-> exists payload, request_json request = Resolved payload
                       /\ required_truthy payload = true)
  /\ (forall payload, request_json request = Resolved payload ->
      required_truthy payload = true ->
      POST request
      = {| status := 200;
           body := Js.JObject [("ok", Js.JBool true); ("received", payload)] |})
  /\ (forall payload e n m, request_json request = Resolved payload ->
      Js.optional_get payload "email" = Some (Js.JString e) -> e <> "" ->
      Js.optional_get payload "name" = Some (Js.JString n) -> n <> "" ->
      Js.optional_get payload "message" = Some (Js.JString m) -> m <> "" ->
      response_ok (POST request) = true)
  /\ (forall payload, request_json request = Resolved payload ->
      required_truthy payload = false ->
      POST request = {| status := 400; body := Js.JObject [("ok", Js.JBool false)] |})
  /\ (forall payload k, request_json request = Resolved payload ->
      In k ["email"; "name"; "message"] ->
      Js.optional_get payload k = None ->
      POST request = {| status := 400; body := Js.JObject [("ok", Js.JBool false)] |})
  /\ (forall error, request_json request = Rejected error ->
      POST request
      = {| status := 500;
           body := Js.JObject [("ok", Js.JBool false); ("error", Js.JString error)] |}).
Proof.
  destruct request as [[payload|error]].
  - rewrite POST_resolved. split_and!.
    + split.
      * intros Hok. exists payload. split; [reflexivity|].
        destruct (required_truthy payload); [reflexivity|discriminate Hok].
      * intros (p' & [= <-] & ->). reflexivity.
    + intros p' [= <-] ->. reflexivity.
    + intros p' e n m [= <-] He He' Hn Hn' Hm Hm'.
      unfold required_truthy.
      rewrite (truthy_nonempty_string _ _ _ He He'),
              (truthy_nonempty_string _ _ _ Hn Hn'),
              (truthy_nonempty_string _ _ _ Hm Hm').
      reflexivity.
    + intros p' [= <-] ->. reflexivity.
    + intros p' k [= <-] Hk Hnone.
      assert (required_truthy payload = false) as ->; [|reflexivity].
      unfold required_truthy. simpl in Hk.
      destruct Hk as [<-|[<-|[<-|[]]]]; rewrite Hnone; simpl;
        rewrite ?andb_false_r; reflexivity.
    + intros error [=].
  - split_and!; try (intros; discriminate).
    + split; [intros [=] | intros (p' & [=] & _)].
    + intros e [= <-]. reflexivity.
Qed.

End ContactEndpoint.

(** C8 as stated fails in both directions: a body with the three fields as
    strings, one of them empty, is answered 400; a body whose three fields are
    not strings is answered with a success. *)
Lemma POST_not_by_string_fields :
  let empty_email :=
    Js.JObject [("email", Js.JString ""); ("name", Js.JString "Ann");
                ("message", Js.JString "Hello")] in
  let no_strings :=
    Js.JObject [("email", Js.JNumber 1%float); ("name", Js.JBool true);
                ("message", Js.JArray [])] in
  (has_string_field empty_email "email" /\ has_string_field empty_email "name"
   /\ has_string_field empty_email "message"
   /\ response_ok (POST {| request_json := Resolved empty_email |}) = false
   /\ status (POST {| request_json := Resolved empty_email |}) = 400)
  /\ (~ has_string_field no_strings "email"
      /\ response_ok (POST {| request_json := Resolved no_strings |}) = true).
Proof.
  cbv zeta. split_and!; try (eexists; reflexivity); try reflexivity.
  intros [s Hs]. discriminate Hs.
Qed.

(** A full body, a body without [email] and [message], a body that is not
    JSON. *)
Lemma POST_spec_witness :
  let payload :=
    Js.JObject [("email", Js.JString "ann@example.com"); ("name", Js.JString "Ann");
                ("message", Js.JString "Hello")] in
  response_ok (POST {| request_json := Resolved payload |}) = true
  /\ status (POST {| request_json := Resolved (Js.JObject [("name", Js.JString "Ann")]) |})
     = 400
  /\ status (POST {| request_json := Rejected "SyntaxError: Unexpected end of JSON input" |})
     = 500.
Proof.
  cbv zeta. split_and!.
  - eapply (POST_spec {| request_json := Resolved _ |});
      [reflexivity | reflexivity | discriminate | reflexivity | discriminate
      | reflexivity | discriminate].
  - erewrite (proj1 (proj2 (proj2 (proj2 (proj2 (POST_spec _))))) _ "email");
      [reflexivity | reflexivity | simpl; tauto | reflexivity].
  - erewrite (proj2 (proj2 (proj2 (proj2 (proj2 (POST_spec _))))));
      [reflexivity | reflexivity].
Defined.

(** ** The authentication gate *)
Section AuthGate.

Lemma adminLocked_true s now :
  0 < lockUntil s -> now < lockUntil s -> adminLocked s now = true.
Proof.
  intros H0 H1. unfold adminLocked.
  apply andb_true_intro; split; apply Z.ltb_lt; assumption.
Qed.

Lemma register_failure_below dateNow s :
  failedCount s + 1 < ADMIN_LOCK_THRESHOLD ->
  register_failure dateNow s = with_failedCount (failedCount s + 1) s.
Proof.
  intros H. unfold register_failure; cbn zeta.
  destruct (Z.leb_spec ADMIN_LOCK_THRESHOLD (failedCount s + 1)); [lia|reflexivity].
Qed.

Lemma register_failure_reached dateNow s :
  ADMIN_LOCK_THRESHOLD <= failedCount s + 1 ->
  register_failure dateNow s = with_lock 0 (dateNow + ADMIN_LOCK_MS) s.
Proof.
  intros H. unfold register_failure; cbn zeta.
  destruct (Z.leb_spec ADMIN_LOCK_THRESHOLD (failedCount s + 1)); [reflexivity|lia].
Qed.

Example lock_is_five_minutes : ADMIN_LOCK_MS = 300000.
Proof. reflexivity. Qed.

Example editor_found :
  user_role <$> find (credentials_match {| email := "EDITOR@example.com";
                                           password := "editor123"; code := "" |})
                     mockUsers
  = Some editor.
Proof. reflexivity. Qed.

Example password_is_case_sensitive :
  find (credentials_match {| email := "editor@example.com";
                             password := "Editor123"; code := "" |}) mockUsers
  = None.
Proof. reflexivity. Qed.

(** *** The panel as [Home] mounts it *)

(** C5 (code bug). As [Home] mounts the panel, a login press throws a
    ReferenceError on its first statement, whatever the form, the admin state
    and the clock are: the failure counter is not raised, no lockout expiry is
    set, and no message, the locked one included, is shown. So the third
    failed attempt in a row leaves the counter at 2 and the expiry at 0. *)
Theorem login_press_throws (dateNow : Z) (p : PanelState) (s : AdminState) :
  let r := handleLogin as_mounted dateNow p s in
  ran_error r = Some (ReferenceError "adminLocked")
  /\ ran_admin r = s
  /\ ran_panel r = p
  /\ failedCount (ran_admin r) = failedCount s
  /\ lockUntil (ran_admin r) = lockUntil s
  /\ authError (ran_panel r) = authError p
  /\ (let third := handleLogin as_mounted 1700
                     (login_panel "admin@example.com" "guess" "")
                     (with_failedCount 2 defaultState) in
      failedCount (ran_admin third) = 2 /\ lockUntil (ran_admin third) = 0
      /\ authError (ran_panel third) = None).
Proof. cbn zeta. now split_and!. Qed.

(** C6 (code bug). As [Home] mounts the panel, a press on the code button
    throws a ReferenceError on its first statement, before the code is looked
    at: the admin state stays as it was, so the administrator's credentials
    with the code "000000" leave [authenticated] false and [role] unset. *)
Theorem code_press_never_authenticates (p : PanelState) (s : AdminState) :
  let r := handleCode as_mounted p s in
  ran_error r = Some (ReferenceError "adminLocked")
  /\ ran_admin r = s
  /\ authenticated (ran_admin r) = authenticated s
  /\ role (ran_admin r) = role s
  /\ failedCount (ran_admin r) = failedCount s
  /\ (let right_code :=
        handleCode as_mounted
          {| authOpen := true; authError := None; step := step_code;
             loginForm := {| email := "admin@example.com"; password := "admin123";
                             code := "000000" |} |}
          defaultState in
      authenticated (ran_admin right_code) = false
      /\ role (ran_admin right_code) = None).
Proof. cbn zeta. now split_and!. Qed.


(** *** What the handlers are written to do

    The bodies below the first statement, in an environment where
    [adminLocked] is bound and [setAdminState] is passed. *)

Lemma handleLogin_bound env locked dateNow p s :
  env_adminLocked env = Some locked ->
  env_setAdminState env = true ->
  handleLogin env dateNow p s
  = if locked then returned (set_error (Some msg_locked) p) s
    else
      match find (credentials_match (loginForm p)) mockUsers with
      | None =>
          returned (set_error (Some msg_bad_credentials) p)
                   (register_failure dateNow s)
      | Some found =>
          if tfa found
          then returned {| authOpen := authOpen p; authError := None;
                           step := step_code; loginForm := loginForm p |} s
          else returned {| authOpen := false; authError := None; step := step p;
                           loginForm := loginForm p |}
                        (with_session (Some (user_role found)) true 0 s)
      end.
Proof. intros Hl Hs. unfold handleLogin. rewrite Hl, Hs. now destruct locked. Qed.

Lemma handleCode_bound env locked p s :
  env_adminLocked env = Some locked ->
  env_setAdminState env = true ->
  handleCode env p s
  = if locked then returned (set_error (Some msg_locked) p) s
    else if negb (String.eqb (Js.trim (code (loginForm p))) "000000")
            && negb (String.eqb (Js.trim (code (loginForm p))) "123456")
    then returned (set_error (Some msg_bad_code) p) s
    else
      match find (credentials_match (loginForm p)) mockUsers with
      | None =>
          returned {| authOpen := authOpen p;
                      authError := Some msg_session_expired;
                      step := step_login; loginForm := loginForm p |} s
      | Some found =>
          returned {| authOpen := false; authError := None; step := step p;
                      loginForm := loginForm p |}
                   (with_session (Some (user_role found)) true 0 s)
      end.
Proof. intros Hl Hs. unfold handleCode. rewrite Hl, Hs. now destruct locked. Qed.

(** With [adminLocked] bound to the value [Home] computes and the prop
    passed, the login press does what C5 describes: the counter is raised on
    a mismatch, the third failure sets the expiry five minutes ahead and
    restarts the counter, and under a lockout every attempt gets the locked
    message. *)
Lemma handleLogin_attempts_lockout env (dateNow now : Z) (p : PanelState)
    (s : AdminState) :
  env_adminLocked env = Some (adminLocked s now) ->
  env_setAdminState env = true ->
  let r := handleLogin env dateNow p s in
  (adminLocked s now = false ->
   find (credentials_match (loginForm p)) mockUsers = None ->
   ran_error r = None
   /\ authError (ran_panel r) = Some msg_bad_credentials
   /\ authenticated (ran_admin r) = authenticated s
   /\ (failedCount s + 1 < 3 ->
       failedCount (ran_admin r) = failedCount s + 1
       /\ lockUntil (ran_admin r) = lockUntil s)
   /\ (3 <= failedCount s + 1 ->
       failedCount (ran_admin r) = 0
       /\ lockUntil (ran_admin r) = dateNow + 5 * 60 * 1000))
  /\ (0 < lockUntil s -> now < lockUntil s ->
      r = returned (set_error (Some msg_locked) p) s).
Proof.
  intros Hl Hs. cbn zeta. rewrite (handleLogin_bound _ _ _ _ _ Hl Hs). split.
  - intros -> ->. cbn [returned ran_panel ran_admin ran_error].
    split_and!; try reflexivity.
    + unfold register_failure; cbn zeta.
      now destruct (ADMIN_LOCK_THRESHOLD <=? failedCount s + 1)%Z.
    + intros Hlt. now rewrite register_failure_below.
    + intros Hge. now rewrite register_failure_reached.
  - intros H0 H1. now rewrite (adminLocked_true _ _ H0 H1).
Qed.

(** With both names bound and no lockout, the code press does what C6 and C10
    describe, on the trimmed code: another code is refused, an accepted code
    with a matching form opens the session with the account's role, and an
    accepted code with a form that matches no account sends the panel back to
    the login step with the session-expired message. *)
Lemma handleCode_attempts env (p : PanelState) (s : AdminState) :
  env_adminLocked env = Some false ->
  env_setAdminState env = true ->
  let r := handleCode env p s in
  (Js.trim (code (loginForm p)) <> "000000" ->
   Js.trim (code (loginForm p)) <> "123456" ->
   r = returned (set_error (Some msg_bad_code) p) s)
  /\ (Js.trim (code (loginForm p)) = "000000"
      \/ Js.trim (code (loginForm p)) = "123456" ->
      (forall u, find (credentials_match (loginForm p)) mockUsers = Some u ->
         ran_admin r = with_session (Some (user_role u)) true 0 s)
      /\ (find (credentials_match (loginForm p)) mockUsers = None ->
          ran_admin r = s /\ step (ran_panel r) = step_login
          /\ authError (ran_panel r) = Some msg_session_expired)).
Proof.
  intros Hl Hs. cbn zeta. rewrite (handleCode_bound _ _ _ _ Hl Hs). split.
  - intros H0 H1.
    destruct (String.eqb_spec (Js.trim (code (loginForm p))) "000000");
      [contradiction|].
    destruct (String.eqb_spec (Js.trim (code (loginForm p))) "123456");
      [contradiction|].
    reflexivity.
  - intros [H|H]; rewrite H; cbn [String.eqb Ascii.eqb Bool.eqb negb andb];
      (split; [intros u ->; reflexivity | intros ->; now split_and!]).
Qed.

End AuthGate.

(** ** Persistence of the admin preferences *)
Section Persistence.

Variable hasWindow : bool.
Variable raw : option string.
Variable JSON_parse : string -> option PartialAdminState.

Lemma adminState_init_cases :
  adminState_init hasWindow raw JSON_parse = defaultState
  \/ exists text parsed,
       raw = Some text /\ JSON_parse text = Some parsed
       /\ adminState_init hasWindow raw JSON_parse = spread_initial defaultState parsed.
Proof.
  unfold adminState_init.
  destruct hasWindow; [|now left].
  destruct raw as [text|]; [|now left].
  destruct (negb (String.eqb text "")); [|now left].
  destruct (JSON_parse text) as [parsed|] eqn:E; [|now left].
  right. now exists text, parsed.
Qed.

(** C7, as the code has it. What the persistence effect writes has no [role],
    [authenticated], [history] or [future] key. The initial admin state has
    empty history and future stacks whatever is stored; it is unauthenticated
    whenever the stored value, if it parses, has no [role] and no
    [authenticated] key, which is so for every value the effect wrote; an
    absent value and one that does not parse give the default state. *)
Theorem adminState_init_spec :
  let init := adminState_init hasWindow raw JSON_parse in
  (forall loaded s v, persist_admin loaded s = Some v ->
     p_role v = None /\ p_authenticated v = None
     /\ p_history v = None /\ p_future v = None)
  /\ history init = [] /\ future init = []
  /\ ((forall text parsed, raw = Some text -> JSON_parse text = Some parsed ->
       p_role parsed = None /\ p_authenticated parsed = None) ->
      role init = None /\ authenticated init = false)
  /\ (forall text s, raw = Some text -> JSON_parse text = Some (toStore s) ->
      role init = None /\ authenticated init = false)
  /\ (forall text, raw = Some text -> JSON_parse text = None -> init = defaultState)
  /\ (raw = None -> init = defaultState).
Proof.
  cbn zeta.
  assert (Hclean : (forall text parsed, raw = Some text ->
                      JSON_parse text = Some parsed ->
                      p_role parsed = None /\ p_authenticated parsed = None) ->
                   role (adminState_init hasWindow raw JSON_parse) = None
                   /\ authenticated (adminState_init hasWindow raw JSON_parse) = false).
  { intros Hkeys.
    destruct adminState_init_cases as [->|(text & parsed & Hr & Hp & ->)];
      [now split|].
    destruct (Hkeys _ _ Hr Hp) as [Hrole Hauth].
    unfold spread_initial; simpl. now rewrite Hrole, Hauth. }
  split_and!.
  - intros loaded s v. unfold persist_admin.
    destruct loaded; [|discriminate]. intros [= <-]. now split_and!.
  - now destruct adminState_init_cases as [->|(? & ? & _ & _ & ->)].
  - now destruct adminState_init_cases as [->|(? & ? & _ & _ & ->)].
  - exact Hclean.
  - intros text s Hr Hp. apply Hclean.
    intros text' parsed Hr' Hp'.
    rewrite Hr in Hr'. injection Hr' as <-.
    rewrite Hp in Hp'. injection Hp' as <-. now split.
  - intros text Hr Hp. unfold adminState_init. rewrite Hr, Hp.
    destruct hasWindow; [|reflexivity].
    now destruct (negb (String.eqb text "")).
  - intros Hr. unfold adminState_init. rewrite Hr. now destruct hasWindow.
Qed.

(** What the effect wrote comes back on load: the six preferences of the
    saved state, over a default session. *)
Lemma load_after_persist (s : AdminState) (text : string) :
  hasWindow = true -> raw = Some text -> text <> "" ->
  JSON_parse text = persist_admin true s ->
  adminState_init hasWindow raw JSON_parse
  = {| preview := preview s; animationsEnabled := animationsEnabled s;
       animationType := animationType s; sections := sections s;
       formFields := formFields s; recipients := recipients s;
       submissions := []; lockUntil := 0; failedCount := 0;
       history := []; future := []; role := None; authenticated := false |}.
Proof.
  intros -> -> Hne Hp. unfold adminState_init.
  destruct (String.eqb_spec text ""); [contradiction|].
  simpl negb. cbv iota. now rewrite Hp.
Qed.

End Persistence.

(** C7 as stated fails: a stored value that holds [role] and [authenticated]
    seeds an authenticated initial state; its stacks are empty all the same. *)
Lemma stored_session_keys_are_loaded :
  let init := adminState_init true (Some session_blob) sample_parse in
  authenticated init = true /\ role init = Some admin
  /\ history init = [] /\ future init = [].
Proof. cbv zeta. vm_compute. now split_and!. Qed.

(** An empty stored object, and a stored text that does not parse. *)
Lemma adminState_init_spec_witness :
  let init := adminState_init true (Some "{}") sample_parse in
  let broken := adminState_init true (Some "{oops") sample_parse in
  (role init = None /\ authenticated init = false)
  /\ broken = defaultState.
Proof.
  cbv zeta. split.
  - destruct (adminState_init_spec true (Some "{}") sample_parse)
      as (_ & _ & _ & Hclean & _).
    apply Hclean. intros text parsed [= <-]. vm_compute. intros [= <-]. now split.
  - destruct (adminState_init_spec true (Some "{oops") sample_parse)
      as (_ & _ & _ & _ & _ & Hbroken & _).
    apply (Hbroken "{oops"); reflexivity.
Defined.

(** * More of the code

    The handlers and helpers of [page.tsx] and [layout.tsx] that the claims
    above do not reach, with the definitions first and their properties
    after. *)

(** ** The contact form ([ContactForm.submit]) *)
Record ContactFormState := { cf_name : string; cf_email : string; cf_message : string }.

Inductive SubmitStatus := st_idle | st_loading | st_done | st_error.

(** What [await fetch(...)] gives: a response, or a rejection (no network). *)
Inductive FetchOutcome :=
  | Answered (res : Response)
  | Failed.

(** The body [JSON.stringify(state)], as the value a JSON parser reads from
    it: the three fields in the order of the state object. *)
Definition form_body (st : ContactFormState) : Js.json :=
  Js.JObject [("name", Js.JString (cf_name st)); ("email", Js.JString (cf_email st));
              ("message", Js.JString (cf_message st))].

(** [submit]: the form it leaves and the calls of [setStatus] it makes, in
    order; [fetch] stands for the request to [/api/contact]. *)
Definition submit (fetch : Js.json -> FetchOutcome) (st : ContactFormState)
    : ContactFormState * list SubmitStatus :=
  if String.eqb (cf_name st) "" || String.eqb (cf_email st) ""
     || String.eqb (cf_message st) ""
  then (st, [])
  else
    match fetch (form_body st) with
    | Answered res =>
        if response_ok res
        then ({| cf_name := ""; cf_email := ""; cf_message := "" |},
              [st_loading; st_done])
        else (st, [st_loading; st_error])
    | Failed => (st, [st_loading; st_error])
    end.

(** The request answered by the handler of [route.ts]. *)
Definition contact_endpoint (b : Js.json) : FetchOutcome :=
  Answered (POST {| request_json := Resolved b |}).

(** ** The editable image ([EditableImage.handleClick]) *)

(** What the click passes to [onChange], if anything; [answer] is the result
    of [prompt] ([None] when the dialog is cancelled). *)
Definition image_handleClick (admin_mode : bool) (answer : option string)
    : option string :=
  if negb admin_mode then None
  else
    match answer with
    | Some next =>
        if negb (String.eqb next "") && negb (String.eqb (Js.trim next) "")
        then Some (Js.trim next)
        else None
    | None => None
    end.

(** ** Redo, repeated *)
Definition redos (n : nat) (st : Store) : Store := Nat.iter n redo st.

(** ** The page keywords ([layout.tsx]) *)

(** [String.prototype.split] with a separator of one character. *)
Fixpoint split_on (sep : ascii) (s : string) : list string :=
  match s with
  | EmptyString => [EmptyString]
  | String c r =>
      if Ascii.eqb c sep then EmptyString :: split_on sep r
      else
        match split_on sep r with
        | piece :: pieces => String c piece :: pieces
        | [] => [String c EmptyString]
        end
  end.

Definition comma : ascii := ascii_of_nat 44.

(** [siteData.meta.keywords.split(",").map((k) => k.trim())]. *)
Definition metadata_keywords (keywords : string) : list string :=
  map Js.trim (split_on comma keywords).

Fixpoint count_char (c : ascii) (s : string) : nat :=
  match s with
  | EmptyString => 0
  | String a r => (if Ascii.eqb a c then 1 else 0) + count_char c r
  end.

(** No white space at the start and none at the end. *)
Definition trimmed (s : string) : Prop :=
  Js.strip_first Js.whitespace s = None
  /\ Js.strip_first (map Js.string_rev Js.whitespace) (Js.string_rev s) = None.

(** ** Sample values for the examples of this part *)
Definition two_edits : Store :=
  edits true [addFeature (card "a"); addFeature (card "b")]
    {| content := blank_content; adminState := defaultState |}.

(** ** Trimmed strings *)
Section Trimmed.

Lemma strip_prefix_app p : forall s r,
  Js.strip_prefix p s = Some r <-> s = String.append p r.
Proof.
  induction p as [|a p IH]; intros s r; simpl.
  - split; [intros [= ->]; reflexivity | intros ->; reflexivity].
  - destruct s as [|b s]; [split; discriminate|].
    destruct (Ascii.eqb_spec a b) as [->|Hab].
    + rewrite IH. split; [intros ->; reflexivity | intros [= ->]; reflexivity].
    + split; [discriminate | intros [= -> _]; contradiction].
Qed.

Lemma strip_first_None tokens s :
  Js.strip_first tokens s = None
  <-> forall t, In t tokens -> Js.strip_prefix t s = None.
Proof.
  induction tokens as [|t ts IH]; simpl.
  - split; [intros _ t [] | reflexivity].
  - destruct (Js.strip_prefix t s) eqn:E.
    + split; [discriminate|]. intros H. rewrite (H t) in E by now left.
      discriminate.
    + rewrite IH. split.
      * intros H t' [<-|Hin]; [exact E | now apply H].
      * intros H t' Hin. apply H. now right.
Qed.

Lemma append_cons x (a b : string) :
  String.append (String x a) b = String x (String.append a b).
Proof. reflexivity. Qed.

Lemma string_app_assoc (a b c : string) :
  String.append (String.append a b) c = String.append a (String.append b c).
Proof.
  induction a as [|x a IH]; [reflexivity|]. now rewrite !append_cons, IH.
Qed.

(** A string that starts with no token has no prefix that starts with one. *)
Lemma strip_first_None_prefix tokens y z :
  Js.strip_first tokens (String.append y z) = None ->
  Js.strip_first tokens y = None.
Proof.
  rewrite !strip_first_None. intros H t Hin.
  destruct (Js.strip_prefix t y) as [r|] eqn:E; [|reflexivity].
  apply strip_prefix_app in E. subst y.
  specialize (H t Hin).
  assert (Js.strip_prefix t (String.append (String.append t r) z)
          = Some (String.append r z)) as Hs
    by (apply strip_prefix_app, string_app_assoc).
  congruence.
Qed.

Lemma strip_first_Some tokens s r :
  Js.strip_first tokens s = Some r -> exists t, s = String.append t r.
Proof.
  induction tokens as [|t ts IH]; simpl; [discriminate|].
  destruct (Js.strip_prefix t s) as [r'|] eqn:E.
  - intros [= <-]. exists t. now apply strip_prefix_app.
  - exact IH.
Qed.

(** The loop returns an end piece of its input. *)
Lemma trim_loop_suffix tokens fuel : forall s,
  exists pre, s = String.append pre (Js.trim_loop tokens fuel s).
Proof.
  induction fuel as [|fuel IH]; intros s; simpl; [now exists ""|].
  destruct (Js.strip_first tokens s) as [r|] eqn:E; [|now exists ""].
  destruct (strip_first_Some _ _ _ E) as [t ->].
  destruct (IH r) as [pre Hpre].
  exists (String.append t pre). now rewrite string_app_assoc, <- Hpre.
Qed.

Lemma list_ascii_app (a b : string) :
  list_ascii_of_string (String.append a b)
  = (list_ascii_of_string a ++ list_ascii_of_string b)%list.
Proof.
  induction a as [|x a IH]; [reflexivity|].
  rewrite append_cons. simpl. now rewrite IH.
Qed.

Lemma string_of_list_app (k l : list ascii) :
  string_of_list_ascii (k ++ l)
  = String.append (string_of_list_ascii k) (string_of_list_ascii l).
Proof.
  induction k as [|x k IH]; [reflexivity|].
  simpl. now rewrite append_cons, IH.
Qed.

Lemma string_rev_app (a b : string) :
  Js.string_rev (String.append a b)
  = String.append (Js.string_rev b) (Js.string_rev a).
Proof.
  unfold Js.string_rev. now rewrite list_ascii_app, rev_app_distr, string_of_list_app.
Qed.

(** [trimEnd] returns a start piece of its input. *)
Lemma trimEnd_prefix x : exists post, x = String.append (Js.trimEnd x) post.
Proof.
  unfold Js.trimEnd.
  destruct (trim_loop_suffix (map Js.string_rev Js.whitespace)
              (String.length x) (Js.string_rev x)) as [pre Hpre].
  exists (Js.string_rev pre).
  rewrite <- string_rev_app, <- Hpre. symmetry. apply string_rev_involutive.
Qed.

(** What [trim] returns has no white space left at the start or at the end. *)
Lemma trim_trimmed s : trimmed (Js.trim s).
Proof.
  split; [|apply trim_done].
  unfold Js.trim.
  destruct (trimEnd_prefix (Js.trimStart s)) as [post Hpost].
  apply (strip_first_None_prefix _ _ post). rewrite <- Hpost. apply trim_done.
Qed.

End Trimmed.

(** ** Undo and redo, there and back *)
Section UndoRedo.

Variable hasStructuredClone : bool.

Lemma with_stacks_same s : with_stacks (history s) (future s) s = s.
Proof. now destruct s. Qed.

Lemma with_stacks_twice h f h' f' s :
  with_stacks h f (with_stacks h' f' s) = with_stacks h f s.
Proof. reflexivity. Qed.

Lemma history_with_stacks h f s : history (with_stacks h f s) = h.
Proof. reflexivity. Qed.

Lemma future_with_stacks h f s : future (with_stacks h f s) = f.
Proof. reflexivity. Qed.

Lemma redo_store c s latest rest :
  future s = latest :: rest ->
  redo {| content := c; adminState := s |}
  = {| content := latest;
       adminState := with_stacks (take HISTORY_LIMIT (c :: history s)) rest s |}.
Proof. intros H. now apply redo_cons. Qed.

Lemma undo_store c s latest rest :
  history s = latest :: rest ->
  undo {| content := c; adminState := s |}
  = {| content := latest;
       adminState := with_stacks rest (take HISTORY_LIMIT (c :: future s)) s |}.
Proof. intros H. now apply undo_cons. Qed.

Lemma take_limit_all (l : list ContentState) :
  (length l <= HISTORY_LIMIT)%nat -> take HISTORY_LIMIT l = l.
Proof. intros H. now apply take_ge. Qed.

(** X5. A redo takes back an undo: when the history is not empty and within
    the limit and the future stack has room (fewer than 20 entries), undo and
    then redo give the state back, content and both stacks. *)
Theorem redo_undo (st : Store) :
  history (adminState st) <> [] ->
  (length (history (adminState st)) <= HISTORY_LIMIT)%nat ->
  (length (future (adminState st)) < HISTORY_LIMIT)%nat ->
  redo (undo st) = st.
Proof.
  intros Hne Hh Hf.
  destruct (history (adminState st)) as [|latest rest] eqn:E; [contradiction|].
  rewrite (undo_cons _ _ _ E).
  rewrite (redo_store _ _ (content st)
             (take (HISTORY_LIMIT - 1) (future (adminState st)))) by reflexivity.
  rewrite history_with_stacks, with_stacks_twice.
  rewrite (take_limit_all (latest :: rest)) by exact Hh.
  rewrite (take_ge (future (adminState st))) by (unfold HISTORY_LIMIT in *; lia).
  rewrite <- E, with_stacks_same. now destruct st.
Qed.

(** X6. An undo takes back a redo, under the mirrored conditions. *)
Theorem undo_redo (st : Store) :
  future (adminState st) <> [] ->
  (length (future (adminState st)) <= HISTORY_LIMIT)%nat ->
  (length (history (adminState st)) < HISTORY_LIMIT)%nat ->
  undo (redo st) = st.
Proof.
  intros Hne Hf Hh.
  destruct (future (adminState st)) as [|latest rest] eqn:E; [contradiction|].
  rewrite (redo_cons _ _ _ E).
  rewrite (undo_store _ _ (content st)
             (take (HISTORY_LIMIT - 1) (history (adminState st)))) by reflexivity.
  rewrite future_with_stacks, with_stacks_twice.
  rewrite (take_limit_all (latest :: rest)) by exact Hf.
  rewrite (take_ge (history (adminState st))) by (unfold HISTORY_LIMIT in *; lia).
  rewrite <- E, with_stacks_same. now destruct st.
Qed.

Lemma undos_lengths n : forall st,
  (n <= length (history (adminState st)))%nat ->
  (length (future (adminState st)) + n <= HISTORY_LIMIT)%nat ->
  length (history (adminState (undos n st))) = (length (history (adminState st)) - n)%nat
  /\ length (future (adminState (undos n st))) = (length (future (adminState st)) + n)%nat.
Proof.
  induction n as [|n IH]; intros st Hn Hf; [simpl; lia|].
  destruct (IH st) as [Ih If]; [lia | lia |].
  change (undos (S n) st) with (undo (undos n st)).
  destruct (history (adminState (undos n st))) as [|latest rest] eqn:E;
    [simpl in Ih; lia|].
  rewrite (undo_cons _ _ _ E). cbn [adminState history future with_stacks].
  rewrite length_take. cbn [length] in Ih |- *. unfold HISTORY_LIMIT in *. lia.
Qed.

Lemma redos_succ n st : redos (S n) st = redos n (redo st).
Proof. unfold redos. apply Nat.iter_succ_r. Qed.

(** X7. As many redos as undos give the state back: after [n] undos, with
    [n] at most the number of history entries (themselves within the limit)
    and the future stack having room for [n] more entries, [n] redos restore
    the content and both stacks. *)
Theorem redos_undos (n : nat) (st : Store) :
  (n <= length (history (adminState st)))%nat ->
  (length (history (adminState st)) <= HISTORY_LIMIT)%nat ->
  (length (future (adminState st)) + n <= HISTORY_LIMIT)%nat ->
  redos n (undos n st) = st.
Proof.
  induction n as [|n IH]; intros Hn Hh Hf; [reflexivity|].
  change (undos (S n) st) with (undo (undos n st)).
  rewrite redos_succ.
  destruct (undos_lengths n st) as [Lh Lf]; [lia | lia |].
  rewrite redo_undo.
  - apply IH; lia.
  - intros E. rewrite E in Lh. simpl in Lh. lia.
  - lia.
  - lia.
Qed.

Lemma step_history_fields st e :
  adminState (step_history hasStructuredClone st e)
  = with_stacks (history (adminState (step_history hasStructuredClone st e)))
      (future (adminState (step_history hasStructuredClone st e))) (adminState st).
Proof.
  destruct e as [mutate| |]; simpl.
  - reflexivity.
  - unfold undo, handleUndo. cbn zeta.
    destruct (history (adminState st)); [now rewrite with_stacks_same | reflexivity].
  - unfold redo, handleRedo. cbn zeta.
    destruct (future (adminState st)); [now rewrite with_stacks_same | reflexivity].
Qed.

(** X8. Edits, undos and redos change the two stacks of the admin state and
    nothing else of it: the session, the lockout and its counter, the
    preferences and the submissions are those of the start. *)
Theorem run_history_keeps_admin (es : list HistoryEvent) (st : Store) :
  let st' := run_history hasStructuredClone es st in
  adminState st'
  = with_stacks (history (adminState st')) (future (adminState st')) (adminState st)
  /\ authenticated (adminState st') = authenticated (adminState st)
  /\ role (adminState st') = role (adminState st)
  /\ lockUntil (adminState st') = lockUntil (adminState st)
  /\ failedCount (adminState st') = failedCount (adminState st).
Proof.
  cbn zeta.
  assert (H : adminState (run_history hasStructuredClone es st)
              = with_stacks (history (adminState (run_history hasStructuredClone es st)))
                  (future (adminState (run_history hasStructuredClone es st)))
                  (adminState st)).
  { revert st. induction es as [|e es IH]; intros st.
    - simpl. now rewrite with_stacks_same.
    - change (run_history hasStructuredClone (e :: es) st)
        with (run_history hasStructuredClone es (step_history hasStructuredClone st e)).
      rewrite (IH (step_history hasStructuredClone st e)) at 1.
      now rewrite (step_history_fields st e). }
  split; [exact H|]. rewrite H. now split_and!.
Qed.

End UndoRedo.

(** ** The contact form and its endpoint *)
Section Contact.

(** X11. The form is left alone, and no status is set, when one of its three
    fields is empty, whatever the network would answer. When the three fields
    are filled and the request reaches the handler of [route.ts], the answer
    is a success: the status goes to loading and then to done, never to
    error, and the form is cleared. *)
Theorem submit_through_endpoint (st : ContactFormState) :
  (forall fetch, cf_name st = "" \/ cf_email st = "" \/ cf_message st = "" ->
     submit fetch st = (st, []))
  /\ (cf_name st <> "" -> cf_email st <> "" -> cf_message st <> "" ->
      submit contact_endpoint st
      = ({| cf_name := ""; cf_email := ""; cf_message := "" |},
         [st_loading; st_done]))
  /\ ~ In st_error (snd (submit contact_endpoint st)).
Proof.
  assert (Hsend : cf_name st <> "" -> cf_email st <> "" -> cf_message st <> "" ->
                  submit contact_endpoint st
                  = ({| cf_name := ""; cf_email := ""; cf_message := "" |},
                     [st_loading; st_done])).
  { intros Hn He Hm. unfold submit, contact_endpoint, POST, form_body. simpl.
    destruct (String.eqb_spec (cf_name st) ""); [contradiction|].
    destruct (String.eqb_spec (cf_email st) ""); [contradiction|].
    destruct (String.eqb_spec (cf_message st) ""); [contradiction|].
    reflexivity. }
  split_and!.
  - intros fetch H. unfold submit.
    destruct (String.eqb_spec (cf_name st) ""); [reflexivity|].
    destruct (String.eqb_spec (cf_email st) ""); [reflexivity|].
    destruct (String.eqb_spec (cf_message st) ""); [reflexivity|].
    destruct H as [?|[?|?]]; contradiction.
  - exact Hsend.
  - destruct (String.eqb_spec (cf_name st) "") as [Hn|Hn];
      [|destruct (String.eqb_spec (cf_email st) "") as [He|He];
        [|destruct (String.eqb_spec (cf_message st) "") as [Hm|Hm]]].
    + unfold submit. rewrite Hn. simpl. tauto.
    + unfold submit. rewrite He. rewrite orb_true_r. simpl. tauto.
    + unfold submit. rewrite Hm. rewrite !orb_true_r. simpl. tauto.
    + rewrite (Hsend Hn He Hm). simpl. intros [H|[H|[]]]; discriminate.
Qed.

(** X12. Every answer of the handler has status 200, 400 or 500, and its body
    is an object whose [ok] entry says whether the status is a success, so a
    client may test either one. *)
Theorem POST_ok_flag (request : Request) :
  (status (POST request) = 200 \/ status (POST request) = 400
   \/ status (POST request) = 500)
  /\ Js.optional_get (body (POST request)) "ok"
     = Some (Js.JBool (response_ok (POST request))).
Proof.
  destruct request as [[payload|error]]; unfold POST; cbn [request_json].
  - destruct (_ || _); simpl; split; tauto.
  - simpl. split; tauto.
Qed.

End Contact.

(** ** The editable image *)
Section Image.

(** X13. A click on an editable image passes a URL to [onChange] only in
    admin mode and only when the prompt was answered; the URL passed is the
    trimmed answer, which is not empty and has no white space at its start or
    end. *)
Theorem image_handleClick_value (admin_mode : bool) (answer : option string)
    (v : string) :
  image_handleClick admin_mode answer = Some v ->
  admin_mode = true
  /\ (exists next, answer = Some next /\ v = Js.trim next)
  /\ v <> ""
  /\ trimmed v.
Proof.
  unfold image_handleClick.
  destruct admin_mode; [|discriminate].
  destruct answer as [next|]; [|discriminate].
  destruct (String.eqb_spec next ""); [discriminate|].
  destruct (String.eqb_spec (Js.trim next) "") as [|Hne]; [discriminate|].
  simpl. intros [= <-].
  split_and!; [reflexivity | now exists next | exact Hne | apply trim_trimmed].
Qed.

End Image.

(** ** The page keywords *)
Section Keywords.

Lemma split_on_cons sep s : exists piece pieces, split_on sep s = piece :: pieces.
Proof.
  destruct s as [|c r]; simpl; [now eexists _, _|].
  destruct (Ascii.eqb c sep); [now eexists _, _|].
  destruct (split_on sep r); now eexists _, _.
Qed.

Lemma split_on_length sep s : length (split_on sep s) = S (count_char sep s).
Proof.
  induction s as [|c r IH]; [reflexivity|]. simpl.
  destruct (Ascii.eqb c sep).
  - simpl. now rewrite IH.
  - destruct (split_on sep r) as [|piece pieces]; simpl in *; lia.
Qed.

(** X14. The keywords of the page metadata are one more than the commas of
    the configured text, and none of them starts or ends with white space. *)
Theorem metadata_keywords_spec (keywords : string) :
  length (metadata_keywords keywords) = S (count_char comma keywords)
  /\ Forall trimmed (metadata_keywords keywords).
Proof.
  unfold metadata_keywords. split.
  - now rewrite length_map, split_on_length.
  - apply Forall_map, Forall_forall. intros piece _. apply trim_trimmed.
Qed.

End Keywords.

(** ** A reload *)
Section Reload.

(** X15. A reload on what the persistence effect wrote starts from the saved
    preferences with the session, the lockout, the failure counter, the
    submissions and both stacks back at their defaults: in particular a
    lockout does not outlast a reload. *)
Theorem reload_resets_session (JSON_parse : string -> option PartialAdminState)
    (text : string) (s : AdminState) (now : Z) :
  text <> "" ->
  JSON_parse text = persist_admin true s ->
  let init := adminState_init true (Some text) JSON_parse in
  adminLocked init now = false
  /\ lockUntil init = 0 /\ failedCount init = 0
  /\ authenticated init = false /\ role init = None
  /\ submissions init = [] /\ history init = [] /\ future init = []
  /\ preview init = preview s
  /\ animationsEnabled init = animationsEnabled s
  /\ animationType init = animationType s
  /\ sections init = sections s
  /\ formFields init = formFields s
  /\ recipients init = recipients s.
Proof.
  intros Hne Hp. cbn zeta.
  rewrite (load_after_persist true (Some text) JSON_parse s text eq_refl eq_refl Hne Hp).
  now split_and!.
Qed.

End Reload.

(** ** Undoing and redoing a run of edits *)
Section EditsBack.

Variable hasStructuredClone : bool.

Lemma edits_stacks ms : forall st,
  ms <> [] ->
  length (history (adminState (edits hasStructuredClone ms st)))
  = Nat.min HISTORY_LIMIT (length ms + length (history (adminState st)))
  /\ future (adminState (edits hasStructuredClone ms st)) = [].
Proof.
  induction ms as [|m ms IH] using rev_ind; intros st Hne; [contradiction|].
  rewrite edits_snoc. split; [|reflexivity].
  unfold updateContent, pushHistory. cbn [adminState history with_stacks].
  rewrite length_take, length_app. cbn [length].
  destruct ms as [|m' ms'].
  - change (edits hasStructuredClone [] st) with st.
    unfold HISTORY_LIMIT. cbn [length]. lia.
  - destruct (IH st) as [-> _]; [discriminate|].
    unfold HISTORY_LIMIT. cbn [length]. lia.
Qed.

(** X18. After a run of edits, undoing [n] of them and redoing [n] gives the
    state after the edits back, for [n] at most the number of edits and at
    most 20. *)
Theorem redos_undos_edits (ms : list (ContentState -> ContentState))
    (st : Store) (n : nat) :
  (n <= length ms)%nat ->
  (n <= HISTORY_LIMIT)%nat ->
  redos n (undos n (edits hasStructuredClone ms st)) = edits hasStructuredClone ms st.
Proof.
  intros Hn Hl.
  destruct ms as [|m ms]; [simpl in Hn; now replace n with 0%nat by lia|].
  destruct (edits_stacks (m :: ms) st) as [Hh Hf]; [discriminate|].
  apply redos_undos.
  - rewrite Hh. simpl length in *. unfold HISTORY_LIMIT in *. lia.
  - rewrite Hh. lia.
  - rewrite Hf. simpl. lia.
Qed.

End EditsBack.

(** ** Examples for the properties of this part *)

Lemma redo_undo_witness : redo (undo two_edits) = two_edits.
Proof.
  apply redo_undo; vm_compute; [discriminate | lia | lia].
Defined.

Lemma undo_redo_witness : undo (redo (undo two_edits)) = undo two_edits.
Proof.
  apply undo_redo; vm_compute; [discriminate | lia | lia].
Defined.

Lemma redos_undos_witness : redos 2 (undos 2 two_edits) = two_edits.
Proof.
  apply redos_undos; vm_compute; lia.
Defined.

Lemma redos_undos_edits_witness :
  let ms := [addFeature (card "a"); addFeature (card "b"); addFeature (card "c")] in
  let st := {| content := blank_content; adminState := defaultState |} in
  redos 3 (undos 3 (edits false ms st)) = edits false ms st.
Proof.
  cbv zeta. apply redos_undos_edits; vm_compute; lia.
Defined.

Lemma image_handleClick_value_witness : trimmed "/images/new.svg".
Proof.
  destruct (image_handleClick_value true (Some "  /images/new.svg ")
              "/images/new.svg" eq_refl) as (_ & _ & _ & H).
  exact H.
Defined.

(** A reload during a lockout, on what the effect wrote. *)
Lemma reload_resets_session_witness :
  let s := with_lock 0 300000 defaultState in
  adminLocked s 1000 = true
  /\ adminLocked
       (adminState_init true (Some "{}") (fun _ => persist_admin true s)) 1000 = false.
Proof.
  cbv zeta. split; [reflexivity|].
  destruct (reload_resets_session (fun _ => persist_admin true (with_lock 0 300000 defaultState))
              "{}" (with_lock 0 300000 defaultState) 1000) as (H & _).
  - discriminate.
  - reflexivity.
  - exact H.
Defined.

(** A filled contact form, sent to the endpoint. *)
Lemma submit_through_endpoint_witness :
  snd (submit contact_endpoint
         {| cf_name := "Ann"; cf_email := "ann@example.com"; cf_message := "Hello" |})
  = [st_loading; st_done].
Proof.
  destruct (submit_through_endpoint
              {| cf_name := "Ann"; cf_email := "ann@example.com";
                 cf_message := "Hello" |}) as (_ & H & _).
  rewrite H; [reflexivity | discriminate | discriminate | discriminate].
Defined.
